(** * Locale routing middleware of the nexcn starter (src/middleware.ts)

    A shallow embedding of [getLocale] and [middleware], together with the
    properties of the routing decision: pass-through on locale-prefixed
    paths, and what happens on the others.

    The two negotiation packages the file imports ([negotiator] and
    [@formatjs/intl-localematcher]) are third-party code that is not part
    of the repository.  The embedding of the middleware is parametric in
    them.  Module [Negotiator] fixes the one thing about the first
    package that the call of middleware.ts:11-13 depends on, where it
    reads the header from; module [Negotiation] is a working pair of
    packages as the specification describes them, used to instantiate the
    parametric statements.

    The language and theme switchers of src/components are embedded as
    well: the href [switchLanguage] pushes, and which button is rendered
    as active. *)

From Stdlib Require Import Ascii String NArith.
From stdpp Require Import base strings gmap list.

Open Scope string_scope.

(** ** JavaScript values used by the middleware *)

Module JS.

(** [s.startsWith(searchString)]. *)
Fixpoint startsWith (s searchString : string) {struct searchString} : bool :=
  match searchString with
  | "" => true
  | String c searchString' =>
      match s with
      | "" => false
      | String d s' => Ascii.eqb d c && startsWith s' searchString'
      end
  end.

(** [a || b] on a value that is a string or [null]: the falsy values of
    that type are [null] and the empty string. *)
Definition or_else (a : option string) (b : string) : string :=
  match a with
  | None => b
  | Some s => if String.eqb s "" then b else s
  end.

(** The outcome of evaluating JavaScript code: a value, or a thrown
    exception (identified by its error name). *)
Inductive Completion (A : Type) : Type :=
| Normal (a : A)
| Throw (error : string).
Global Arguments Normal {A} a.
Global Arguments Throw {A} error.

(** Sequencing: an exception thrown by [c] ends the evaluation. *)
Definition bind {A B} (k : A -> Completion B) (c : Completion A) : Completion B :=
  match c with
  | Normal a => k a
  | Throw e => Throw e
  end.

Global Instance Completion_ret : MRet Completion := @Normal.
Global Instance Completion_bind : MBind Completion := @bind.

End JS.

Import JS.

(** The components of a URL object; [host] carries the port. *)
Record URL : Type := mkURL {
  protocol : string;
  host : string;
  pathname : string;
  search : string;
  hash : string
}.

(** [url.pathname = value]: an assignment to one field of the object. *)
Definition set_pathname (url : URL) (value : string) : URL :=
  {| protocol := protocol url;
     host := host url;
     pathname := value;
     search := search url;
     hash := hash url |}.

(** What the middleware reads of a [NextRequest]: its header map (which
    holds every request header, cookies included) and its [nextUrl]. *)
Record NextRequest : Type := mkRequest {
  headers : gmap string string;
  nextUrl : URL
}.

(** [request.headers.get(name)]: [null] when the header is absent. *)
Definition headers_get (request : NextRequest) (name : string) : option string :=
  headers request !! name.

Definition set_nextUrl (request : NextRequest) (url : URL) : NextRequest :=
  {| headers := headers request; nextUrl := url |}.

(** [NextResponse.redirect(url)]. *)
Inductive NextResponse : Type :=
| redirect (url : URL).

(** ** src/middleware.ts *)

Definition locales : list string := ["en"; "ar"].
Definition defaultLocale : string := "en".

(** The locale test of [middleware], the callback given to [locales.some]. *)
Definition hasLocalePrefix (pathname locale : string) : bool :=
  startsWith pathname ("/" +:+ locale +:+ "/") || String.eqb pathname ("/" +:+ locale).

Definition pathnameHasLocale (pathname : string) : bool :=
  existsb (hasLocalePrefix pathname) locales.

Section Middleware.

(** The imported packages.  [Languages] is the value that
    [new Negotiator(...).languages()] hands to [match]; either call may
    throw. *)
Variable Languages : Type.
Variable Negotiator_languages : string -> Completion Languages.
Variable match_ : Languages -> list string -> string -> Completion string.

(** The header string that is negotiated. *)
Definition acceptLanguage (request : NextRequest) : string :=
  or_else (headers_get request "accept-language") defaultLocale.

Definition getLocale (request : NextRequest) : Completion string :=
  languages ← Negotiator_languages (acceptLanguage request);
  match_ languages locales defaultLocale.

(** [middleware] returns [undefined] ([None]) to let the request pass,
    or a redirect response.  It assigns to [request.nextUrl.pathname],
    so the request object after the call is returned as well. *)
Definition middleware (request : NextRequest)
  : Completion (option NextResponse * NextRequest) :=
  let pathname := pathname (nextUrl request) in
  if pathnameHasLocale pathname then Normal (None, request)
  else
    locale ← getLocale request;
    let request' :=
      set_nextUrl request (set_pathname (nextUrl request) ("/" +:+ locale +:+ pathname)) in
    Normal (Some (redirect (nextUrl request')), request').

End Middleware.

(** The observable decision: the redirect target, if any. *)
Definition redirectTarget (r : Completion (option NextResponse * NextRequest)) : option URL :=
  match r with
  | Normal (Some (redirect url), _) => Some url
  | _ => None
  end.

(** ** The Negotiator call of middleware.ts:11-13 *)

Module Negotiator.

(** The value of a property of the object given to [new Negotiator(...)]:
    a string, or an object of string-valued entries. *)
Inductive Property : Type :=
| text (s : string)
| object (entries : gmap string string).

Section Package.

(** What the package makes of the value of the accept-language header,
    [undefined] included; its code is not in the repository. *)
Variable Languages : Type.
Variable preferredLanguages : option string -> Completion Languages.

(** [new Negotiator(request).languages()].  The constructor keeps the
    object it is given as the request, and [languages()] reads
    [request.headers["accept-language"]]: with no [headers] property this
    reads a property of [undefined], a TypeError; a string has no such
    property. *)
Definition languages (request : gmap string Property) : Completion Languages :=
  match request !! "headers" with
  | None => Throw "TypeError"
  | Some (text _) => preferredLanguages None
  | Some (object entries) => preferredLanguages (entries !! "accept-language")
  end.

End Package.

End Negotiator.

(** The object literal of the call, [{ "accept-language": acceptLanguage }]:
    the header is its one property, and it has no [headers] property. *)
Definition negotiatorArgument (acceptLanguage : string) : gmap string Negotiator.Property :=
  {[ "accept-language" := Negotiator.text acceptLanguage ]}.

(** The call as [getLocale] makes it:
    [new Negotiator({ "accept-language": acceptLanguage }).languages()]. *)
Definition languagesCall (Languages : Type)
    (preferredLanguages : option string -> Completion Languages)
    (acceptLanguage : string) : Completion Languages :=
  Negotiator.languages Languages preferredLanguages (negotiatorArgument acceptLanguage).

(** ** The negotiation packages, as the specification describes them

    A pair of packages that negotiate, with which the parametric
    statements are instantiated.  It is not what the call of
    middleware.ts:11-13 reaches: see [languagesCall]. *)

Module Negotiation.

(** Modelled from the spec: a Language Preference entry, a language tag
    with its weight, as the absent [negotiator] package parses it.
    Weights are kept in thousandths ([q=0.9] is [900]), the precision of
    a quality value. *)
Record preference : Type := mkPreference {
  tag : string;
  q : N
}.

(** Modelled from the spec: the pieces of a string between the
    occurrences of a separator, for the comma-separated header of the
    absent parser. *)
Fixpoint split (sep : ascii) (s : string) : list string :=
  match s with
  | "" => [""]
  | String c s' =>
      if Ascii.eqb c sep then "" :: split sep s'
      else match split sep s' with
           | [] => [String c ""]
           | w :: ws => String c w :: ws
           end
  end.

(** Modelled from the spec: the absent parser ignores the spaces around
    a tag or a parameter; here those in front. *)
Fixpoint trimStart (s : string) : string :=
  match s with
  | String " " s' => trimStart s'
  | _ => s
  end.

(** Modelled from the spec: as [trimStart], the spaces behind. *)
Fixpoint trimEnd (s : string) : string :=
  match s with
  | "" => ""
  | String c s' =>
      match trimEnd s' with
      | "" => if Ascii.eqb c " " then "" else String c ""
      | t => String c t
      end
  end.

(** Modelled from the spec: the tag or parameter of the absent parser
    without the spaces around it. *)
Definition trim (s : string) : string := trimEnd (trimStart s).

(** Modelled from the spec: a decimal digit of a weight of the absent
    parser. *)
Definition digit (c : ascii) : option N :=
  let n := N_of_ascii c in
  if (48 <=? n)%N && (n <=? 57)%N then Some (n - 48)%N else None.

(** Modelled from the spec: the digits after the decimal point of a
    weight of the absent parser, the first one worth [scale] thousandths;
    more than three digits are not a quality value. *)
Fixpoint fraction (s : string) (scale : N) : option N :=
  match s with
  | "" => Some 0%N
  | String c s' =>
      if (scale =? 0)%N then None
      else d ← digit c;
           r ← fraction s' (scale / 10)%N;
           Some (d * scale + r)%N
  end.

(** Modelled from the spec: the weight of an entry of the absent parser,
    [0], [1], or [0.ddd] / [1.000] with up to three digits, in
    thousandths. *)
Definition qvalue (s : string) : option N :=
  match s with
  | String i rest =>
      whole ← digit i;
      frac ← match rest with
             | "" => Some 0%N
             | String "." digits => fraction digits 100
             | _ => None
             end;
      let v := (whole * 1000 + frac)%N in
      if (v <=? 1000)%N then Some v else None
  | "" => None
  end.

(** Modelled from the spec: a string without its first [n] characters,
    used by the absent parser to read what follows [q=]. *)
Fixpoint skip (n : nat) (s : string) : string :=
  match n, s with
  | S n', String _ s' => skip n' s'
  | _, _ => s
  end.

(** Modelled from the spec: the weight among the parameters of an entry
    of the absent parser; [1] when none is given. *)
Fixpoint weightOf (params : list string) : option N :=
  match params with
  | [] => Some 1000%N
  | p :: ps =>
      let p' := trim p in
      if startsWith p' "q=" then qvalue (skip 2 p') else weightOf ps
  end.

(** Modelled from the spec: one comma-separated entry of the absent
    parser, [tag] or [tag;q=weight]; an entry with no tag or with a
    malformed weight is not a preference. *)
Definition entry (item : string) : option preference :=
  match split ";" item with
  | t :: params =>
      let t' := trim t in
      if String.eqb t' "" then None
      else w ← weightOf params; Some {| tag := t'; q := w |}
  | [] => None
  end.

(** Modelled from the spec: the header parser of the [negotiator]
    package, a third-party dependency whose code is not in the
    repository.  The specification gives its interface as
    [parse(headerString) -> ordered list of (tag, weight)] over a string
    of comma-separated language-tag/weight pairs such as
    ["en-US,en;q=0.9,ar;q=0.8"]; entries that are not such a pair
    contribute no preference. *)
Definition parse (headerString : string) : list preference :=
  omap entry (split "," headerString).

(** Modelled from the spec: the language of a tag for the absent
    matcher's language-only match, what precedes the first hyphen. *)
Definition language (t : string) : string :=
  match split "-" t with
  | l :: _ => l
  | [] => t
  end.

(** Modelled from the spec: language tags are compared without regard to
    case in the absent matcher; here one character in lower case. *)
Definition lowerChar (c : ascii) : ascii :=
  let n := N_of_ascii c in
  if (65 <=? n)%N && (n <=? 90)%N then ascii_of_N (n + 32) else c.

(** Modelled from the spec: a tag in lower case, for the comparison of
    tags in the absent matcher. *)
Fixpoint toLowerCase (s : string) : string :=
  match s with
  | "" => ""
  | String c s' => String (lowerChar c) (toLowerCase s')
  end.

(** Modelled from the spec: how a preferred tag matches a candidate in
    the absent matcher, [2] for the exact tag, [1] for the same language
    only, [0] for no match; case is not significant. *)
Definition matchKind (t candidate : string) : N :=
  if String.eqb (toLowerCase t) (toLowerCase candidate) then 2
  else if String.eqb (language (toLowerCase t)) (language (toLowerCase candidate)) then 1
  else 0.

(** Modelled from the spec: the rank a preference gives a candidate in
    the absent matcher, [0] when it does not match or has the weight [0]
    (not acceptable); otherwise higher for a higher weight and, at equal
    weight, higher for an exact match than for a language-only match. *)
Definition rank (p : preference) (candidate : string) : N :=
  if (q p =? 0)%N then 0%N
  else match matchKind (tag p) candidate with
       | 0 => 0
       | k => 3 * q p + k
       end%N.

(** Modelled from the spec: how well a candidate matches the ranked
    preferences in the absent matcher, its best rank over the list. *)
Definition score (preferences : list preference) (candidate : string) : N :=
  foldr N.max 0%N (map (fun p => rank p candidate) preferences).

(** Modelled from the spec: the highest-ranked candidate of the absent
    matcher with its score, if any candidate matches at all; among
    equally ranked candidates the one declared first. *)
Fixpoint best (preferences : list preference) (supported : list string)
  : option (string * N) :=
  match supported with
  | [] => None
  | c :: rest =>
      let s := score preferences c in
      match best preferences rest with
      | Some (c', s') => if (s' <=? s)%N then Some (c, s) else Some (c', s')
      | None => if (0 <? s)%N then Some (c, s) else None
      end
  end.

(** Modelled from the spec: the matcher of the
    [@formatjs/intl-localematcher] package, a third-party dependency
    whose code is not in the repository.  The specification's
    [resolveLocale(preferences, supported, default)] ranks each
    candidate in [supported] by how well it matches the preferences
    (exact tag match preferred over language-only match, preferences
    considered in descending weight order) and returns the
    highest-ranked one, the earlier in declared order on a tie, or the
    default when no preference matches a supported locale. *)
Definition resolveLocale (preferences : list preference) (supported : list string)
    (default : string) : string :=
  match best preferences supported with
  | Some (c, _) => c
  | None => default
  end.

(** Modelled from the spec: the parser [parse(headerString)] as a package
    call that is given the header string and returns normally on every
    header. *)
Definition languages (headerString : string) : Completion (list preference) :=
  Normal (parse headerString).

(** Modelled from the spec: the matcher
    [match(preferences, supportedTags, defaultTag)] as a package call that
    returns normally on every input. *)
Definition match_ (preferences : list preference) (supported : list string)
    (default : string) : Completion string :=
  Normal (resolveLocale preferences supported default).

(** [getLocale] and [middleware] instantiated with this pair of
    packages. *)
Definition getLocale : NextRequest -> Completion string :=
  getLocale (list preference) languages match_.

Definition routeRequest : NextRequest -> Completion (option NextResponse * NextRequest) :=
  middleware (list preference) languages match_.

End Negotiation.

(** A request for [path] on a fixed site, with the given headers. *)
Definition requestFor (path : string) (hs : gmap string string) : NextRequest :=
  {| headers := hs;
     nextUrl := {| protocol := "https:"; host := "example.com"; pathname := path;
                   search := "?page=2"; hash := "" |} |}.

Definition withAcceptLanguage (value : string) : gmap string string :=
  {[ "accept-language" := value ]}.

(** Two requests for one path and header, from different sessions and
    to different hosts. *)
Definition visitor1 : NextRequest :=
  requestFor "/about" {[ "accept-language" := "ar,en;q=0.5"; "cookie" := "session=1" ]}.

Definition visitor2 : NextRequest :=
  {| headers := {[ "accept-language" := "ar,en;q=0.5"; "cookie" := "session=2";
                   "user-agent" := "curl" ]};
     nextUrl := {| protocol := "http:"; host := "localhost:3000"; pathname := "/about";
                   search := ""; hash := "" |} |}.

(** What a caller observes of a run: pass-through, the path of the
    redirect target, or the exception. *)
Definition decision (r : Completion (option NextResponse * NextRequest))
  : Completion (option string) :=
  match r with
  | Normal (None, _) => Normal None
  | Normal (Some (redirect url), _) => Normal (Some (pathname url))
  | Throw e => Throw e
  end.

(** The response alone, without the request object. *)
Definition response (r : Completion (option NextResponse * NextRequest))
  : Completion (option NextResponse) :=
  match r with
  | Normal (resp, _) => Normal resp
  | Throw e => Throw e
  end.

(** What [middleware] returns when it redirects [request] under [locale]:
    the response, and the request object after the assignment. *)
Definition redirected (request : NextRequest) (locale : string)
  : Completion (option NextResponse * NextRequest) :=
  let url := set_pathname (nextUrl request)
               ("/" +:+ locale +:+ pathname (nextUrl request)) in
  Normal (Some (redirect url), set_nextUrl request url).

(** ** JavaScript string methods used by the components

    A character of a [string] stands for one code unit of the JavaScript
    string, so [String.length] is its [length]. *)

Module JSString.

(** [s.slice(start)] for a non-negative integer [start]: what follows the
    first [start] code units, the empty string when there are no more. *)
Fixpoint slice (s : string) (start : nat) : string :=
  match start, s with
  | S start', String _ s' => slice s' start'
  | _, _ => s
  end.

(** [s.split(separator)] for a separator of one character: the pieces
    between its occurrences; one piece, [s], when it does not occur. *)
Fixpoint split (s : string) (separator : ascii) : list string :=
  match s with
  | "" => [""]
  | String c s' =>
      if Ascii.eqb c separator then "" :: split s' separator
      else match split s' separator with
           | [] => [String c ""]
           | piece :: pieces => String c piece :: pieces
           end
  end.

(** [s.replace(pattern, replacement)] for a string pattern and a
    replacement without [$]: the first occurrence of the pattern is
    replaced, and [s] is returned as it is when there is none. *)
Fixpoint replace (s pattern replacement : string) {struct s} : string :=
  if startsWith s pattern then replacement +:+ slice s (String.length pattern)
  else match s with
       | "" => ""
       | String c s' => String c (replace s' pattern replacement)
       end.

(** A value that may be [undefined], inside a template literal. *)
Definition template (v : option string) : string :=
  match v with
  | Some s => s
  | None => "undefined"
  end.

(** [s.includes(c)] for one character; locale codes and path segments
    are the strings that do not include a slash. *)
Fixpoint includes (s : string) (c : ascii) : bool :=
  match s with
  | "" => false
  | String d s' => Ascii.eqb d c || includes s' c
  end.

End JSString.

(** ** src/components/language-switcher-multi-button.tsx *)

Module LanguageSwitcherMultiButton.

(** [switchLanguage] of the component, with the [pathname] of
    [usePathname()] and the [locale] of [useLocale()] it closes over; the
    result is the href it gives to [router.push]. *)
Definition switchLanguage (pathname locale newLocale : string) : string :=
  let pathWithoutLocale := JSString.slice pathname (String.length locale + 1) in
  "/" +:+ newLocale +:+ or_else (Some pathWithoutLocale) "/".

Record Language : Type := mkLanguage {
  value : string;
  label : string;
  display : string
}.

Definition languages : list Language :=
  [ {| value := "en"; label := "Switch to English"; display := "EN" |};
    {| value := "ar"; label := "Switch to Arabic"; display := "ع" |} ].

(** What the component renders of a button: its key and label, whether
    it carries the active background, and the href its click pushes. *)
Record Button : Type := mkButton {
  key : string;
  ariaLabel : string;
  isActive : bool;
  onClick : string
}.

Definition render (pathname locale : string) : list Button :=
  map (fun language =>
         {| key := value language;
            ariaLabel := label language;
            isActive := String.eqb locale (value language);
            onClick := switchLanguage pathname locale (value language) |})
      languages.

End LanguageSwitcherMultiButton.

(** The second component of the file, the dropdown [LanguageToggle]. *)
Module LanguageToggle.

(** [pathname.split("/")[1]]: [undefined] when there is no second piece. *)
Definition currentLocale (pathname : string) : option string :=
  JSString.split pathname "/" !! 1.

Definition switchLanguage (pathname newLocale : string) : string :=
  let pathWithoutLocale :=
    JSString.replace pathname ("/" +:+ JSString.template (currentLocale pathname)) "" in
  "/" +:+ newLocale +:+ or_else (Some pathWithoutLocale) "/".

(** The locales of the two menu items, in their order. *)
Definition items : list string := ["en"; "ar"].

End LanguageToggle.

(** ** src/components/theme-switcher-multi-button.tsx *)

Module ThemeSwitcherMultiButton.

Record Theme : Type := mkTheme {
  value : string;
  label : string
}.

Definition themes : list Theme :=
  [ {| value := "system"; label := "Switch to system theme" |};
    {| value := "light"; label := "Switch to light theme" |};
    {| value := "dark"; label := "Switch to dark theme" |} ].

(** What the component renders of a button: its key and label, whether
    it carries the active background, and the theme its click sets. *)
Record Button : Type := mkButton {
  key : string;
  ariaLabel : string;
  isActive : bool;
  onClick : string
}.

(** [theme === value] for the [theme] of [useTheme()], which may be
    [undefined]. *)
Definition strictEquals (theme : option string) (value : string) : bool :=
  match theme with
  | Some t => String.eqb t value
  | None => false
  end.

(** The buttons of the component: none before it is mounted, when it
    shows three placeholders instead. *)
Definition render (mounted : bool) (theme : option string) : list Button :=
  if negb mounted then []
  else map (fun t =>
              {| key := value t;
                 ariaLabel := label t;
                 isActive := strictEquals theme (value t);
                 onClick := value t |})
           themes.

End ThemeSwitcherMultiButton.

(** A matcher that rejects every list of languages, to exercise the
    exception path of [getLocale]. *)
Definition rejectingMatch (languages : list Negotiation.preference)
    (supported : list string) (default : string) : Completion string :=
  Throw "RangeError".

(** * Properties *)

(** ** Strings *)

Lemma append_cons (c : ascii) (a b : string) : String c a +:+ b = String c (a +:+ b).
Proof. reflexivity. Qed.

Lemma append_nil (b : string) : "" +:+ b = b.
Proof. reflexivity. Qed.

Lemma startsWith_app (searchString rest : string) :
  startsWith (searchString +:+ rest) searchString = true.
Proof.
  induction searchString as [|c p IH]; [done|].
  rewrite append_cons. cbn. by rewrite Ascii.eqb_refl, IH.
Qed.

Lemma startsWith_inv (s searchString : string) :
  startsWith s searchString = true -> exists rest, s = searchString +:+ rest.
Proof.
  revert s. induction searchString as [|c p IH]; intros s H.
  - by exists s.
  - destruct s as [|d s']; [done|]. cbn in H.
    apply andb_true_iff in H as [Hc Hs]. apply Ascii.eqb_eq in Hc as ->.
    destruct (IH _ Hs) as [rest ->]. by exists rest.
Qed.

Lemma startsWith_iff (s searchString : string) :
  startsWith s searchString = true <-> exists rest, s = searchString +:+ rest.
Proof.
  split; [apply startsWith_inv|]. intros [rest ->]. apply startsWith_app.
Qed.

Lemma append_assoc (a b c : string) : (a +:+ b) +:+ c = a +:+ (b +:+ c).
Proof. induction a as [|x a IH]; [done|]. by rewrite !append_cons, IH. Qed.

(** ** The locale test *)

Lemma hasLocalePrefix_iff (path locale : string) :
  hasLocalePrefix path locale = true <->
  (exists rest, path = "/" +:+ locale +:+ "/" +:+ rest) \/ path = "/" +:+ locale.
Proof.
  unfold hasLocalePrefix. rewrite orb_true_iff, startsWith_iff, String.eqb_eq.
  split; (intros [[rest H]|H]; [left; exists rest|by right]).
  - by rewrite H, !append_assoc.
  - by rewrite H, !append_assoc.
Qed.

Lemma pathnameHasLocale_iff (path : string) :
  pathnameHasLocale path = true <->
  exists locale, locale ∈ locales /\
    ((exists rest, path = "/" +:+ locale +:+ "/" +:+ rest) \/ path = "/" +:+ locale).
Proof.
  unfold pathnameHasLocale. rewrite existsb_exists.
  split; intros (locale & Hin & H); exists locale.
  - by rewrite list_elem_of_In, <- hasLocalePrefix_iff.
  - by rewrite <- list_elem_of_In, hasLocalePrefix_iff.
Qed.

Lemma pathnameHasLocale_false (path : string) :
  pathnameHasLocale path = false <->
  forall locale, locale ∈ locales ->
    ~ (exists rest, path = "/" +:+ locale +:+ "/" +:+ rest) /\ path <> "/" +:+ locale.
Proof.
  rewrite <- not_true_iff_false, pathnameHasLocale_iff. split.
  - intros H locale Hin. split; intros Hp; apply H; exists locale; auto.
  - intros H (locale & Hin & Hp). destruct (H locale Hin) as [H1 H2]. by destruct Hp.
Qed.

(** A path that begins with a slash is locale-prefixed once a supported
    locale is put in front of it: the redirect target passes through. *)
Lemma prefixed_pathnameHasLocale (locale rest : string) :
  locale ∈ locales -> pathnameHasLocale ("/" +:+ locale +:+ "/" +:+ rest) = true.
Proof. intros Hin. apply pathnameHasLocale_iff. exists locale. split; [done|]. left. by exists rest. Qed.

(** ** The middleware, for any negotiation packages *)

Section MiddlewareFacts.

Context (Languages : Type).
Context (Negotiator_languages : string -> Completion Languages).
Context (match_ : Languages -> list string -> string -> Completion string).

Local Abbreviation resolve := (getLocale Languages Negotiator_languages match_).
Local Abbreviation run := (middleware Languages Negotiator_languages match_).

Lemma middleware_passThrough (request : NextRequest) :
  pathnameHasLocale (pathname (nextUrl request)) = true ->
  run request = Normal (None, request).
Proof. intros H. unfold middleware. by rewrite H. Qed.

Lemma middleware_redirect (request : NextRequest) (locale : string) :
  pathnameHasLocale (pathname (nextUrl request)) = false ->
  resolve request = Normal locale ->
  run request = redirected request locale.
Proof. intros H Hl. unfold middleware. by rewrite H, Hl. Qed.

Lemma middleware_throw (request : NextRequest) (e : string) :
  pathnameHasLocale (pathname (nextUrl request)) = false ->
  resolve request = Throw e ->
  run request = Throw e.
Proof. intros H Hl. unfold middleware. by rewrite H, Hl. Qed.

(** A redirect comes from the second branch only. *)
Lemma middleware_redirect_inv (request : NextRequest) (url : URL) :
  redirectTarget (run request) = Some url ->
  pathnameHasLocale (pathname (nextUrl request)) = false /\
  exists locale, resolve request = Normal locale /\
    url = set_pathname (nextUrl request) ("/" +:+ locale +:+ pathname (nextUrl request)).
Proof.
  destruct (pathnameHasLocale (pathname (nextUrl request))) eqn:Hp.
  - by rewrite middleware_passThrough.
  - destruct (resolve request) as [locale|e] eqn:Hl.
    + rewrite (middleware_redirect _ _ Hp Hl). cbn. intros [= <-]. eauto.
    + by rewrite (middleware_throw _ _ Hp Hl).
Qed.

(** The negotiated string depends on the accept-language header only. *)
Lemma getLocale_header (r1 r2 : NextRequest) :
  headers_get r1 "accept-language" = headers_get r2 "accept-language" ->
  resolve r1 = resolve r2.
Proof. intros H. unfold getLocale, acceptLanguage. by rewrite H. Qed.

End MiddlewareFacts.

(** ** The routing decision *)

(** C1. A request whose path starts with ["/<locale>/"] or is
    ["/<locale>"], for a locale of the supported set, passes through: the
    middleware returns no response and leaves the request as it is,
    whatever the headers hold and whatever the negotiation packages do. *)
Theorem prefixed_path_passes_through
    (Languages : Type) (Negotiator_languages : string -> Completion Languages)
    (match_ : Languages -> list string -> string -> Completion string)
    (request : NextRequest) (locale : string) :
  locale ∈ locales ->
  (exists rest, pathname (nextUrl request) = "/" +:+ locale +:+ "/" +:+ rest) \/
    pathname (nextUrl request) = "/" +:+ locale ->
  middleware Languages Negotiator_languages match_ request = Normal (None, request).
Proof.
  intros Hin Hpath. apply middleware_passThrough, pathnameHasLocale_iff. eauto.
Qed.

Lemma prefixed_path_passes_through_witness :
  Negotiation.routeRequest (requestFor "/en/about" (withAcceptLanguage "ar"))
  = Normal (None, requestFor "/en/about" (withAcceptLanguage "ar")).
Proof.
  apply (prefixed_path_passes_through _ _ _ _ "en").
  - apply list_elem_of_here.
  - left. by exists "about".
Defined.

(** ** Locale resolution *)

(** [getLocale] has no handler of its own: an exception of either
    package is the outcome of [getLocale]. *)
Lemma getLocale_propagates_throw
    (Languages : Type) (Negotiator_languages : string -> Completion Languages)
    (match_ : Languages -> list string -> string -> Completion string)
    (request : NextRequest) (e : string) :
  Negotiator_languages (acceptLanguage request) = Throw e \/
  (exists languages, Negotiator_languages (acceptLanguage request) = Normal languages /\
     match_ languages locales defaultLocale = Throw e) ->
  getLocale Languages Negotiator_languages match_ request = Throw e.
Proof.
  unfold getLocale. intros [->|(languages & -> & Hm)]; [done|]. exact Hm.
Qed.

(** An absent or empty header is replaced by the default locale code. *)
Lemma acceptLanguage_absent (request : NextRequest) :
  headers_get request "accept-language" = None \/
  headers_get request "accept-language" = Some "" ->
  acceptLanguage request = "en".
Proof. unfold acceptLanguage. by intros [-> | ->]. Qed.

Lemma acceptLanguage_present (request : NextRequest) (h : string) :
  headers_get request "accept-language" = Some h -> h <> "" ->
  acceptLanguage request = h.
Proof.
  unfold acceptLanguage. intros -> Hne. cbn.
  destruct (String.eqb h "") eqn:E; [|done]. by apply String.eqb_eq in E.
Qed.

(** ** The call as it is made *)

(** The object of the call has no [headers] property, so the package
    throws before it looks at the header, whatever the header is. *)
Lemma languagesCall_throws (Languages : Type)
    (preferredLanguages : option string -> Completion Languages)
    (acceptLanguage : string) :
  languagesCall Languages preferredLanguages acceptLanguage = Throw "TypeError".
Proof.
  unfold languagesCall, Negotiator.languages, negotiatorArgument.
  by rewrite lookup_singleton_ne.
Qed.

(** Had the header been passed under [headers], the package would have
    been given its value. *)
Lemma languages_under_headers (Languages : Type)
    (preferredLanguages : option string -> Completion Languages)
    (acceptLanguage : string) :
  Negotiator.languages Languages preferredLanguages
    {[ "headers" := Negotiator.object {[ "accept-language" := acceptLanguage ]} ]}
  = preferredLanguages (Some acceptLanguage).
Proof.
  unfold Negotiator.languages. by rewrite lookup_singleton_eq, lookup_singleton_eq.
Qed.

Section CallFacts.

Context (Languages : Type).
Context (preferredLanguages : option string -> Completion Languages).
Context (match_ : Languages -> list string -> string -> Completion string).

Local Abbreviation resolve :=
  (getLocale Languages (languagesCall Languages preferredLanguages) match_).
Local Abbreviation run :=
  (middleware Languages (languagesCall Languages preferredLanguages) match_).

Lemma getLocale_call (request : NextRequest) : resolve request = Throw "TypeError".
Proof. unfold getLocale. by rewrite languagesCall_throws. Qed.

Lemma middleware_call (request : NextRequest) :
  pathnameHasLocale (pathname (nextUrl request)) = false ->
  run request = Throw "TypeError".
Proof. intros Hp. apply middleware_throw; [done|]. apply getLocale_call. Qed.

End CallFacts.

(** C2. The claim fails on the code: on every path that is not prefixed
    with a supported locale the middleware ends in the TypeError of the
    Negotiator call and returns no redirect, whatever the header and
    whatever the packages would do with it. *)
Theorem unprefixed_path_throws
    (Languages : Type) (preferredLanguages : option string -> Completion Languages)
    (match_ : Languages -> list string -> string -> Completion string)
    (request : NextRequest) :
  (forall locale, locale ∈ locales ->
     ~ (exists rest, pathname (nextUrl request) = "/" +:+ locale +:+ "/" +:+ rest) /\
     pathname (nextUrl request) <> "/" +:+ locale) ->
  middleware Languages (languagesCall Languages preferredLanguages) match_ request
  = Throw "TypeError" /\
  redirectTarget
    (middleware Languages (languagesCall Languages preferredLanguages) match_ request)
  = None.
Proof.
  intros Hp%pathnameHasLocale_false. by rewrite middleware_call.
Qed.

Lemma unprefixed_path_throws_witness :
  middleware _ (languagesCall _ (fun header => Negotiation.languages (default "" header)))
    Negotiation.match_ (requestFor "/about" (withAcceptLanguage "ar;q=0.9,en;q=0.5"))
  = Throw "TypeError".
Proof.
  apply (unprefixed_path_throws _ (fun header => Negotiation.languages (default "" header))
           Negotiation.match_
           (requestFor "/about" (withAcceptLanguage "ar;q=0.9,en;q=0.5"))).
  apply pathnameHasLocale_false. reflexivity.
Defined.

(** C3. The claim fails on the code: for the path ["/"] the middleware
    takes the second branch and ends in the TypeError of the Negotiator
    call; there is no redirect, to ["/en"] or elsewhere. *)
Theorem root_path_throws
    (Languages : Type) (preferredLanguages : option string -> Completion Languages)
    (match_ : Languages -> list string -> string -> Completion string)
    (request : NextRequest) :
  pathname (nextUrl request) = "/" ->
  pathnameHasLocale (pathname (nextUrl request)) = false /\
  middleware Languages (languagesCall Languages preferredLanguages) match_ request
  = Throw "TypeError" /\
  redirectTarget
    (middleware Languages (languagesCall Languages preferredLanguages) match_ request)
  = None.
Proof.
  intros Hroot.
  assert (pathnameHasLocale (pathname (nextUrl request)) = false) as Hp
    by (by rewrite Hroot).
  by rewrite middleware_call.
Qed.

Lemma root_path_throws_witness :
  middleware _ (languagesCall _ (fun header => Negotiation.languages (default "" header)))
    Negotiation.match_ (requestFor "/" ∅)
  = Throw "TypeError".
Proof.
  apply (root_path_throws _ (fun header => Negotiation.languages (default "" header))
           Negotiation.match_ (requestFor "/" ∅)).
  reflexivity.
Defined.

(** C4. The claim fails on the code: [getLocale] returns on no request.
    For every header, present or absent, it ends in the TypeError of the
    Negotiator call, and it has no handler for it. *)
Theorem getLocale_throws
    (Languages : Type) (preferredLanguages : option string -> Completion Languages)
    (match_ : Languages -> list string -> string -> Completion string)
    (request : NextRequest) :
  getLocale Languages (languagesCall Languages preferredLanguages) match_ request
  = Throw "TypeError".
Proof. apply getLocale_call. Qed.

(** C5. The claim fails on the code: for the path ["/about"] and the
    header ["ar;q=0.9,en;q=0.5"] the header is what is negotiated, but
    [getLocale] ends in the TypeError of the Negotiator call and the
    request is not redirected to ["/ar/about"]. *)
Theorem top_weight_scenario_throws
    (Languages : Type) (preferredLanguages : option string -> Completion Languages)
    (match_ : Languages -> list string -> string -> Completion string)
    (request : NextRequest) :
  pathname (nextUrl request) = "/about" ->
  headers_get request "accept-language" = Some "ar;q=0.9,en;q=0.5" ->
  acceptLanguage request = "ar;q=0.9,en;q=0.5" /\
  getLocale Languages (languagesCall Languages preferredLanguages) match_ request
  = Throw "TypeError" /\
  decision (middleware Languages (languagesCall Languages preferredLanguages) match_ request)
  = Throw "TypeError".
Proof.
  intros Hpath Hh. split; [by apply acceptLanguage_present|].
  split; [apply getLocale_call|].
  rewrite middleware_call; [done|]. by rewrite Hpath.
Qed.

Lemma top_weight_scenario_throws_witness :
  decision
    (middleware _ (languagesCall _ (fun header => Negotiation.languages (default "" header)))
       Negotiation.match_ (requestFor "/about" (withAcceptLanguage "ar;q=0.9,en;q=0.5")))
  = Throw "TypeError".
Proof.
  apply (top_weight_scenario_throws _
           (fun header => Negotiation.languages (default "" header)) Negotiation.match_
           (requestFor "/about" (withAcceptLanguage "ar;q=0.9,en;q=0.5")));
    reflexivity.
Defined.

(** C6. The claim fails on the code: the matcher, where a tie between
    supported locales would be decided, is never reached.  With any two
    matchers [getLocale] has the same outcome, and it is no locale. *)
Theorem tie_break_not_reached
    (Languages : Type) (preferredLanguages : option string -> Completion Languages)
    (match1 match2 : Languages -> list string -> string -> Completion string)
    (request : NextRequest) :
  getLocale Languages (languagesCall Languages preferredLanguages) match1 request
  = getLocale Languages (languagesCall Languages preferredLanguages) match2 request /\
  forall locale,
    getLocale Languages (languagesCall Languages preferredLanguages) match1 request
    <> Normal locale.
Proof. by rewrite !getLocale_call. Qed.

(** C7. The claim fails on the code: for the path ["/fr/about"] and the
    header ["fr"] the middleware takes the branch of a path without
    locale, as the claim says, but ends in the TypeError of the
    Negotiator call instead of the redirect to ["/en/fr/about"]. *)
Theorem unsupported_prefix_throws
    (Languages : Type) (preferredLanguages : option string -> Completion Languages)
    (match_ : Languages -> list string -> string -> Completion string)
    (request : NextRequest) :
  pathname (nextUrl request) = "/fr/about" ->
  headers_get request "accept-language" = Some "fr" ->
  pathnameHasLocale (pathname (nextUrl request)) = false /\
  acceptLanguage request = "fr" /\
  decision (middleware Languages (languagesCall Languages preferredLanguages) match_ request)
  = Throw "TypeError".
Proof.
  intros Hpath Hh.
  assert (pathnameHasLocale (pathname (nextUrl request)) = false) as Hp
    by (by rewrite Hpath).
  split; [done|]. split; [by apply acceptLanguage_present|].
  by rewrite middleware_call.
Qed.

Lemma unsupported_prefix_throws_witness :
  decision
    (middleware _ (languagesCall _ (fun header => Negotiation.languages (default "" header)))
       Negotiation.match_ (requestFor "/fr/about" (withAcceptLanguage "fr")))
  = Throw "TypeError".
Proof.
  apply (unsupported_prefix_throws _
           (fun header => Negotiation.languages (default "" header)) Negotiation.match_
           (requestFor "/fr/about" (withAcceptLanguage "fr")));
    reflexivity.
Defined.

(** C9. With no accept-language header the string that is negotiated is
    the default locale code ["en"], and for any packages [getLocale] does
    what it does for a client that sent ["en"]; but the claim's result
    fails on the code: with the call as it is made that is the TypeError
    of the Negotiator call, not the locale ["en"]. *)
Theorem missing_header_throws
    (Languages : Type) (Negotiator_languages : string -> Completion Languages)
    (preferredLanguages : option string -> Completion Languages)
    (match_ : Languages -> list string -> string -> Completion string)
    (request : NextRequest) :
  headers_get request "accept-language" = None ->
  acceptLanguage request = "en" /\
  (forall sent : NextRequest,
     headers_get sent "accept-language" = Some "en" ->
     getLocale Languages Negotiator_languages match_ request
     = getLocale Languages Negotiator_languages match_ sent) /\
  getLocale Languages (languagesCall Languages preferredLanguages) match_ request
  = Throw "TypeError".
Proof.
  intros Hnone.
  assert (acceptLanguage request = "en") as Ha by (apply acceptLanguage_absent; auto).
  split; [done|]. split; [|apply getLocale_call].
  intros sent Hsent. unfold getLocale.
  by rewrite Ha, (acceptLanguage_present sent "en").
Qed.

Lemma missing_header_throws_witness :
  getLocale _ (languagesCall _ (fun header => Negotiation.languages (default "" header)))
    Negotiation.match_ (requestFor "/about" ∅)
  = Throw "TypeError".
Proof.
  apply (missing_header_throws _ Negotiation.languages
           (fun header => Negotiation.languages (default "" header)) Negotiation.match_
           (requestFor "/about" ∅)).
  reflexivity.
Defined.

(** ** Dependence on the request *)

(** C8. The outcome is a function of the path and the accept-language
    header alone: two requests that agree on these two get the same
    decision and the same redirect path, whatever their other headers
    (cookies among them) and the rest of their URL; if they agree on the
    whole URL they get the same response. *)
Theorem middleware_deterministic
    (Languages : Type) (Negotiator_languages : string -> Completion Languages)
    (match_ : Languages -> list string -> string -> Completion string)
    (r1 r2 : NextRequest) :
  pathname (nextUrl r1) = pathname (nextUrl r2) ->
  headers_get r1 "accept-language" = headers_get r2 "accept-language" ->
  decision (middleware Languages Negotiator_languages match_ r1)
  = decision (middleware Languages Negotiator_languages match_ r2) /\
  (nextUrl r1 = nextUrl r2 ->
   response (middleware Languages Negotiator_languages match_ r1)
   = response (middleware Languages Negotiator_languages match_ r2)).
Proof.
  intros Hpath Hh.
  pose proof (getLocale_header _ Negotiator_languages match_ _ _ Hh) as Hl.
  unfold middleware. rewrite Hl, Hpath.
  destruct (pathnameHasLocale (pathname (nextUrl r2))); [done|].
  destruct (getLocale _ _ _ r2) as [locale|e]; cbn; [|done].
  split; [done|]. by intros ->.
Qed.

Lemma middleware_deterministic_witness :
  decision (Negotiation.routeRequest visitor1) = decision (Negotiation.routeRequest visitor2).
Proof.
  apply (middleware_deterministic _ Negotiation.languages Negotiation.match_
           visitor1 visitor2); reflexivity.
Defined.

(** C10. A redirect changes the path of the request URL only: the target
    has the protocol, host, query string and fragment of the incoming
    request and the path ["/<locale>"] followed by the incoming path; the
    request object keeps its headers and holds the target as its URL. *)
Theorem redirect_frame
    (Languages : Type) (Negotiator_languages : string -> Completion Languages)
    (match_ : Languages -> list string -> string -> Completion string)
    (request : NextRequest) (url : URL) :
  redirectTarget (middleware Languages Negotiator_languages match_ request) = Some url ->
  protocol url = protocol (nextUrl request) /\
  host url = host (nextUrl request) /\
  search url = search (nextUrl request) /\
  hash url = hash (nextUrl request) /\
  exists locale,
    getLocale Languages Negotiator_languages match_ request = Normal locale /\
    pathname url = "/" +:+ locale +:+ pathname (nextUrl request) /\
    exists request',
      middleware Languages Negotiator_languages match_ request
      = Normal (Some (redirect url), request') /\
      headers request' = headers request /\ nextUrl request' = url.
Proof.
  intros H. destruct (middleware_redirect_inv _ _ _ _ _ H) as (Hp & locale & Hl & ->).
  repeat (split; [done|]). exists locale. repeat (split; [done|]).
  eexists. split; [by apply middleware_redirect|]. done.
Qed.

Lemma redirect_frame_witness :
  redirectTarget (Negotiation.routeRequest (requestFor "/about" (withAcceptLanguage "ar")))
  = Some (set_pathname (nextUrl (requestFor "/about" (withAcceptLanguage "ar"))) "/ar/about") /\
  search (set_pathname (nextUrl (requestFor "/about" (withAcceptLanguage "ar"))) "/ar/about")
  = "?page=2".
Proof.
  split; [reflexivity|].
  apply (redirect_frame _ Negotiation.languages Negotiation.match_
           (requestFor "/about" (withAcceptLanguage "ar"))).
  reflexivity.
Defined.


(** ** JavaScript string methods *)

Lemma append_empty_r (a : string) : a +:+ "" = a.
Proof. induction a as [|c a IH]; [done|]. by rewrite append_cons, IH. Qed.

Lemma slice_app (a b : string) : JSString.slice (a +:+ b) (String.length a) = b.
Proof. induction a as [|c a IH]; [by destruct b|]. by rewrite append_cons. Qed.

Lemma slice_short (s : string) (start : nat) :
  String.length s <= start -> JSString.slice s start = "".
Proof.
  revert start. induction s as [|c s IH]; intros [|start] H; cbn in *; try done; try lia.
  apply IH. lia.
Qed.

Lemma split_nonempty (s : string) (separator : ascii) : JSString.split s separator <> [].
Proof.
  induction s as [|c s IH]; [done|]. cbn.
  destruct (Ascii.eqb c separator); [done|]. by destruct (JSString.split s separator).
Qed.

(** A piece without the separator is the first piece of what it starts. *)
Lemma split_piece (piece : string) (separator : ascii) :
  JSString.includes piece separator = false ->
  JSString.split piece separator = [piece] /\
  forall rest, JSString.split (piece +:+ String separator rest) separator
               = piece :: JSString.split rest separator.
Proof.
  induction piece as [|c piece IH]; intros H.
  - split; [done|]. intros rest. rewrite append_nil. cbn. by rewrite Ascii.eqb_refl.
  - cbn in H. apply orb_false_iff in H as [Hc Hp]. destruct (IH Hp) as [IH1 IH2].
    split; [cbn; by rewrite Hc, IH1|].
    intros rest. rewrite append_cons. cbn. by rewrite Hc, IH2.
Qed.

(** Every string is a first piece without the separator, followed by
    nothing or by a separator. *)
Lemma split_decompose (s : string) (separator : ascii) :
  exists piece rest,
    s = piece +:+ rest /\ JSString.includes piece separator = false /\
    (rest = "" \/ exists rest', rest = String separator rest').
Proof.
  induction s as [|c s (piece & rest & -> & Hp & Hrest)].
  - exists "", "". auto.
  - destruct (Ascii.eqb c separator) eqn:Hc.
    + apply Ascii.eqb_eq in Hc as ->. exists "", (String separator (piece +:+ rest)).
      split; [done|]. split; [done|]. right. eauto.
    + exists (String c piece), rest. split; [done|]. split; [|done]. cbn. by rewrite Hc.
Qed.

Lemma replace_unfold (s pattern replacement : string) :
  JSString.replace s pattern replacement =
  if startsWith s pattern
  then replacement +:+ JSString.slice s (String.length pattern)
  else match s with
       | "" => ""
       | String c s' => String c (JSString.replace s' pattern replacement)
       end.
Proof. by destruct s. Qed.

(** A pattern at the start of the string is the occurrence replaced. *)
Lemma replace_prefix (pattern rest replacement : string) :
  JSString.replace (pattern +:+ rest) pattern replacement = replacement +:+ rest.
Proof. by rewrite replace_unfold, startsWith_app, slice_app. Qed.

Lemma or_else_string (s : string) :
  (s = "" /\ or_else (Some s) "/" = "/") \/ (s <> "" /\ or_else (Some s) "/" = s).
Proof.
  cbn. destruct (String.eqb s "") eqn:E.
  - left. by apply String.eqb_eq in E.
  - right. by apply String.eqb_neq in E.
Qed.

Lemma locales_no_slash (locale : string) :
  locale ∈ locales -> JSString.includes locale "/" = false.
Proof. intros H%list_elem_of_In. cbn in H. by destruct H as [<-|[<-|[]]]. Qed.

(** ** The language switchers *)

Lemma multiButton_switchLanguage_path (locale newLocale rest : string) :
  LanguageSwitcherMultiButton.switchLanguage ("/" +:+ locale +:+ rest) locale newLocale
  = "/" +:+ newLocale +:+ or_else (Some rest) "/".
Proof.
  unfold LanguageSwitcherMultiButton.switchLanguage.
  rewrite Nat.add_1_r.
  change ("/" +:+ locale +:+ rest) with (String "/" (locale +:+ rest)).
  cbn [JSString.slice]. by rewrite slice_app.
Qed.

Lemma toggle_currentLocale (piece rest : string) :
  JSString.includes piece "/" = false ->
  rest = "" \/ (exists rest', rest = String "/" rest') ->
  LanguageToggle.currentLocale ("/" +:+ piece +:+ rest) = Some piece.
Proof.
  intros Hp Hrest. destruct (split_piece piece "/" Hp) as [H1 H2].
  unfold LanguageToggle.currentLocale.
  change ("/" +:+ piece +:+ rest) with (String "/" (piece +:+ rest)).
  cbn [JSString.split Ascii.eqb Bool.eqb].
  destruct Hrest as [->|[rest' ->]].
  - by rewrite append_empty_r, H1.
  - by rewrite H2.
Qed.

Lemma toggle_switchLanguage_path (piece rest newLocale : string) :
  JSString.includes piece "/" = false ->
  rest = "" \/ (exists rest', rest = String "/" rest') ->
  LanguageToggle.switchLanguage ("/" +:+ piece +:+ rest) newLocale
  = "/" +:+ newLocale +:+ or_else (Some rest) "/".
Proof.
  intros Hp Hrest. unfold LanguageToggle.switchLanguage.
  rewrite (toggle_currentLocale _ _ Hp Hrest). cbn [JSString.template].
  by rewrite <- (append_assoc "/" piece rest), replace_prefix, append_nil.
Qed.

(** The pushed href, behind the new locale: a path again. *)
Lemma or_else_rest (rest : string) :
  rest = "" \/ (exists rest', rest = String "/" rest') ->
  exists rest', or_else (Some rest) "/" = "/" +:+ rest'.
Proof.
  intros [->|[rest' ->]]; [by exists ""|]. by exists rest'.
Qed.

(** ** The middleware over successive requests *)

Lemma decision_congr
    (Languages : Type) (Negotiator_languages : string -> Completion Languages)
    (match_ : Languages -> list string -> string -> Completion string)
    (r1 r2 : NextRequest) :
  pathname (nextUrl r1) = pathname (nextUrl r2) ->
  acceptLanguage r1 = acceptLanguage r2 ->
  decision (middleware Languages Negotiator_languages match_ r1)
  = decision (middleware Languages Negotiator_languages match_ r2).
Proof.
  intros Hpath Ha. unfold middleware, getLocale. rewrite Hpath, Ha.
  destruct (pathnameHasLocale (pathname (nextUrl r2))); [done|].
  destruct (Negotiator_languages (acceptLanguage r2)) as [languages|e]; [|done]. cbn.
  by destruct (match_ languages locales defaultLocale).
Qed.

(** X1. No redirect loop: when the packages pick a supported locale, the
    request object left by a redirect (whose URL is the redirect target)
    passes through the middleware. *)
Theorem redirect_target_passes_through
    (Languages : Type) (Negotiator_languages : string -> Completion Languages)
    (match_ : Languages -> list string -> string -> Completion string)
    (request request' : NextRequest) (response : NextResponse) :
  (exists rest, pathname (nextUrl request) = "/" +:+ rest) ->
  (forall locale,
     getLocale Languages Negotiator_languages match_ request = Normal locale ->
     locale ∈ locales) ->
  middleware Languages Negotiator_languages match_ request
  = Normal (Some response, request') ->
  middleware Languages Negotiator_languages match_ request' = Normal (None, request').
Proof.
  intros [rest Hrest] Hsupported H.
  destruct (pathnameHasLocale (pathname (nextUrl request))) eqn:Hp.
  - by rewrite middleware_passThrough in H.
  - destruct (getLocale Languages Negotiator_languages match_ request)
      as [locale|e] eqn:Hl.
    + rewrite (middleware_redirect _ _ _ _ _ Hp Hl) in H. injection H as _ <-.
      apply middleware_passThrough. cbn. rewrite Hrest.
      apply prefixed_pathnameHasLocale. by apply Hsupported.
    + by rewrite (middleware_throw _ _ _ _ _ Hp Hl) in H.
Qed.

Lemma redirect_target_passes_through_witness :
  Negotiation.routeRequest
    (set_nextUrl (requestFor "/about" (withAcceptLanguage "ar"))
       (set_pathname (nextUrl (requestFor "/about" (withAcceptLanguage "ar"))) "/ar/about"))
  = Normal (None,
            set_nextUrl (requestFor "/about" (withAcceptLanguage "ar"))
              (set_pathname (nextUrl (requestFor "/about" (withAcceptLanguage "ar")))
                 "/ar/about")).
Proof.
  eapply (redirect_target_passes_through _ Negotiation.languages Negotiation.match_
            (requestFor "/about" (withAcceptLanguage "ar"))).
  - by exists "about".
  - intros locale [= <-]. apply list_elem_of_further, list_elem_of_here.
  - reflexivity.
Defined.

(** X2. The middleware has no handler: it ends in an exception exactly
    when the path carries no supported locale and one of the two package
    calls throws, and the exception is that one. *)
Theorem middleware_throws_iff
    (Languages : Type) (Negotiator_languages : string -> Completion Languages)
    (match_ : Languages -> list string -> string -> Completion string)
    (request : NextRequest) (e : string) :
  middleware Languages Negotiator_languages match_ request = Throw e <->
  pathnameHasLocale (pathname (nextUrl request)) = false /\
  (Negotiator_languages (acceptLanguage request) = Throw e \/
   exists languages,
     Negotiator_languages (acceptLanguage request) = Normal languages /\
     match_ languages locales defaultLocale = Throw e).
Proof.
  unfold middleware, getLocale.
  destruct (pathnameHasLocale (pathname (nextUrl request))).
  - split; [done|]. by intros [? _].
  - destruct (Negotiator_languages (acceptLanguage request)) as [languages|e'].
    + cbn. destruct (match_ languages locales defaultLocale) as [locale|e''] eqn:Hm; cbn.
      * split; [done|]. intros [_ [H|(languages' & [= <-] & H)]]; [done|]. congruence.
      * split.
        -- intros [= ->]. split; [done|]. right. eauto.
        -- intros [_ [H|(languages' & [= <-] & H)]]; [done|]. congruence.
    + cbn. split.
      * intros [= ->]. auto.
      * intros [_ [[= ->]|(languages' & H & _)]]; done.
Qed.

Lemma middleware_throws_iff_witness :
  middleware _ Negotiation.languages rejectingMatch (requestFor "/about" (withAcceptLanguage "*"))
  = Throw "RangeError".
Proof.
  apply (middleware_throws_iff _ Negotiation.languages rejectingMatch).
  split; [reflexivity|]. right. eexists. split; reflexivity.
Defined.

(** X3. An empty accept-language header is negotiated like an absent one
    and like the header ["en"]: the requests get the same decision. *)
Theorem empty_header_as_absent
    (Languages : Type) (Negotiator_languages : string -> Completion Languages)
    (match_ : Languages -> list string -> string -> Completion string)
    (r1 r2 : NextRequest) :
  pathname (nextUrl r1) = pathname (nextUrl r2) ->
  headers_get r1 "accept-language" = Some "" ->
  headers_get r2 "accept-language" = None \/
    headers_get r2 "accept-language" = Some "en" ->
  decision (middleware Languages Negotiator_languages match_ r1)
  = decision (middleware Languages Negotiator_languages match_ r2).
Proof.
  intros Hpath H1 H2. apply decision_congr; [done|].
  rewrite (acceptLanguage_absent r1) by auto.
  destruct H2 as [H2|H2].
  - by rewrite (acceptLanguage_absent r2) by auto.
  - by rewrite (acceptLanguage_present r2 "en").
Qed.

Lemma empty_header_as_absent_witness :
  decision (Negotiation.routeRequest (requestFor "/about" (withAcceptLanguage "")))
  = decision (Negotiation.routeRequest (requestFor "/about" ∅)).
Proof.
  apply (empty_header_as_absent _ Negotiation.languages Negotiation.match_
           (requestFor "/about" (withAcceptLanguage "")) (requestFor "/about" ∅)).
  - reflexivity.
  - reflexivity.
  - left. reflexivity.
Defined.

(** X4. The locale test is by whole segment: a path counts as
    locale-prefixed exactly when it starts with a slash and its first
    segment, [pathname.split("/")[1]], is a supported locale. *)
Theorem pathnameHasLocale_first_segment (path : string) :
  pathnameHasLocale path = true <->
  startsWith path "/" = true /\
  exists locale, locale ∈ locales /\ LanguageToggle.currentLocale path = Some locale.
Proof.
  rewrite pathnameHasLocale_iff. split.
  - intros (locale & Hin & Hpath).
    pose proof (locales_no_slash _ Hin) as Hns.
    assert (exists rest, path = "/" +:+ locale +:+ rest /\
              (rest = "" \/ exists rest', rest = String "/" rest')) as (rest & -> & Hrest).
    { destruct Hpath as [[rest ->]| ->].
      - exists ("/" +:+ rest). split; [done|]. right. by exists rest.
      - exists "". split; [|by left]. by rewrite append_empty_r. }
    split; [apply startsWith_app|]. exists locale. split; [done|].
    by apply toggle_currentLocale.
  - intros (Hstart & locale & Hin & Hcur).
    apply startsWith_inv in Hstart as [s ->].
    destruct (split_decompose s "/") as (piece & rest & -> & Hp & Hrest).
    rewrite (toggle_currentLocale _ _ Hp Hrest) in Hcur. injection Hcur as ->.
    exists locale. split; [done|].
    destruct Hrest as [->|[rest' ->]].
    + right. by rewrite append_empty_r.
    + left. by exists rest'.
Qed.

Lemma pathnameHasLocale_first_segment_witness :
  pathnameHasLocale "/ar/products/7" = true.
Proof.
  apply pathnameHasLocale_first_segment.
  split; [reflexivity|]. exists "ar". split; [|reflexivity].
  apply list_elem_of_further, list_elem_of_here.
Defined.

(** ** Switching the language *)

(** X5. On a path that carries the current locale, the multi-button
    switcher keeps what follows the locale and puts the new locale in
    front of it. *)
Theorem multiButton_preserves_path (locale newLocale rest : string) :
  rest <> "" ->
  LanguageSwitcherMultiButton.switchLanguage ("/" +:+ locale +:+ rest) locale newLocale
  = "/" +:+ newLocale +:+ rest.
Proof.
  intros Hne. rewrite multiButton_switchLanguage_path.
  by destruct (or_else_string rest) as [[? _]|[_ ->]].
Qed.

Lemma multiButton_preserves_path_witness :
  LanguageSwitcherMultiButton.switchLanguage "/en/products/7" "en" "ar" = "/ar/products/7".
Proof. apply (multiButton_preserves_path "en" "ar" "/products/7"). discriminate. Defined.

(** X6. On a path no longer than ["/<locale>"], the bare locale path
    among them, the multi-button switcher pushes ["/<newLocale>/"]. *)
Theorem multiButton_short_path (pathname locale newLocale : string) :
  String.length pathname <= String.length locale + 1 ->
  LanguageSwitcherMultiButton.switchLanguage pathname locale newLocale
  = "/" +:+ newLocale +:+ "/".
Proof.
  intros Hlen. unfold LanguageSwitcherMultiButton.switchLanguage.
  by rewrite slice_short.
Qed.

Lemma multiButton_short_path_witness :
  LanguageSwitcherMultiButton.switchLanguage "/en" "en" "ar" = "/ar/".
Proof. apply multiButton_short_path. cbn. lia. Defined.

(** X7. Switching to another locale and back restores the path, when
    something follows the locale in it. *)
Theorem multiButton_round_trip (locale newLocale rest : string) :
  rest <> "" ->
  LanguageSwitcherMultiButton.switchLanguage
    (LanguageSwitcherMultiButton.switchLanguage ("/" +:+ locale +:+ rest) locale newLocale)
    newLocale locale
  = "/" +:+ locale +:+ rest.
Proof.
  intros Hne. destruct (or_else_string rest) as [[? _]|[_ Hrest]]; [done|].
  by rewrite multiButton_switchLanguage_path, Hrest, multiButton_switchLanguage_path, Hrest.
Qed.

Lemma multiButton_round_trip_witness :
  LanguageSwitcherMultiButton.switchLanguage
    (LanguageSwitcherMultiButton.switchLanguage "/en/about" "en" "ar") "ar" "en"
  = "/en/about".
Proof. apply (multiButton_round_trip "en" "ar" "/about"). discriminate. Defined.

Lemma languages_supported (language : LanguageSwitcherMultiButton.Language) :
  language ∈ LanguageSwitcherMultiButton.languages ->
  LanguageSwitcherMultiButton.value language ∈ locales.
Proof.
  intros H%list_elem_of_In. cbn in H.
  destruct H as [<-|[<-|[]]]; apply list_elem_of_In; cbn; auto.
Qed.

(** X8. On a path that carries the current locale, the href that any
    button of the multi-button switcher pushes is a path the middleware
    lets pass, whatever the negotiation packages do. *)
Theorem multiButton_click_passes_middleware
    (Languages : Type) (Negotiator_languages : string -> Completion Languages)
    (match_ : Languages -> list string -> string -> Completion string)
    (locale rest : string) (button : LanguageSwitcherMultiButton.Button)
    (request : NextRequest) :
  rest = "" \/ (exists rest', rest = "/" +:+ rest') ->
  button ∈ LanguageSwitcherMultiButton.render ("/" +:+ locale +:+ rest) locale ->
  pathname (nextUrl request) = LanguageSwitcherMultiButton.onClick button ->
  middleware Languages Negotiator_languages match_ request = Normal (None, request).
Proof.
  intros Hrest Hb Hpath.
  apply list_elem_of_fmap in Hb as (language & -> & Hin%languages_supported).
  cbn in Hpath. rewrite multiButton_switchLanguage_path in Hpath.
  destruct (or_else_rest rest Hrest) as [rest' Hr]. rewrite Hr in Hpath.
  apply middleware_passThrough. rewrite Hpath. by apply prefixed_pathnameHasLocale.
Qed.

Lemma multiButton_click_passes_middleware_witness :
  Negotiation.routeRequest (requestFor "/ar/about" ∅)
  = Normal (None, requestFor "/ar/about" ∅).
Proof.
  apply (multiButton_click_passes_middleware _ Negotiation.languages Negotiation.match_
           "en" "/about"
           {| LanguageSwitcherMultiButton.key := "ar";
              LanguageSwitcherMultiButton.ariaLabel := "Switch to Arabic";
              LanguageSwitcherMultiButton.isActive := false;
              LanguageSwitcherMultiButton.onClick := "/ar/about" |}).
  - right. by exists "about".
  - apply list_elem_of_further, list_elem_of_here.
  - reflexivity.
Defined.

(** X9. The dropdown toggle takes the first segment of the path for the
    current locale, supported or not: on every path that starts with a
    slash it replaces that segment by the new locale and keeps the rest,
    and pushes ["/<newLocale>/"] when nothing follows the segment. *)
Theorem toggle_replaces_first_segment (pathname newLocale : string) :
  startsWith pathname "/" = true ->
  exists segment rest,
    pathname = "/" +:+ segment +:+ rest /\
    JSString.includes segment "/" = false /\
    LanguageToggle.currentLocale pathname = Some segment /\
    LanguageToggle.switchLanguage pathname newLocale
    = "/" +:+ newLocale +:+ (if String.eqb rest "" then "/" else rest).
Proof.
  intros [s ->]%startsWith_inv.
  destruct (split_decompose s "/") as (segment & rest & -> & Hs & Hrest).
  exists segment, rest. split; [done|]. split; [done|].
  split; [by apply toggle_currentLocale|]. by apply toggle_switchLanguage_path.
Qed.

Lemma toggle_replaces_first_segment_witness :
  exists segment rest,
    "/en/about" = "/" +:+ segment +:+ rest /\
    JSString.includes segment "/" = false /\
    LanguageToggle.currentLocale "/en/about" = Some segment /\
    LanguageToggle.switchLanguage "/en/about" "ar"
    = "/" +:+ "ar" +:+ (if String.eqb rest "" then "/" else rest).
Proof. apply toggle_replaces_first_segment. reflexivity. Defined.

(** X10. The two switchers push the same href on a path that carries
    the current locale as its first segment. *)
Theorem toggle_agrees_with_multiButton (locale newLocale rest : string) :
  JSString.includes locale "/" = false ->
  rest = "" \/ (exists rest', rest = "/" +:+ rest') ->
  LanguageToggle.switchLanguage ("/" +:+ locale +:+ rest) newLocale
  = LanguageSwitcherMultiButton.switchLanguage ("/" +:+ locale +:+ rest) locale newLocale.
Proof.
  intros Hl Hrest.
  by rewrite toggle_switchLanguage_path, multiButton_switchLanguage_path.
Qed.

Lemma toggle_agrees_with_multiButton_witness :
  LanguageToggle.switchLanguage "/ar/docs" "en"
  = LanguageSwitcherMultiButton.switchLanguage "/ar/docs" "ar" "en".
Proof.
  apply (toggle_agrees_with_multiButton "ar" "en" "/docs"); [reflexivity|].
  right. by exists "docs".
Defined.

(** X11. Whatever page the toggle is used on, the href of each of its
    menu items is a path the middleware lets pass. *)
Theorem toggle_click_passes_middleware
    (Languages : Type) (Negotiator_languages : string -> Completion Languages)
    (match_ : Languages -> list string -> string -> Completion string)
    (pathname' newLocale : string) (request : NextRequest) :
  startsWith pathname' "/" = true ->
  newLocale ∈ LanguageToggle.items ->
  pathname (nextUrl request) = LanguageToggle.switchLanguage pathname' newLocale ->
  middleware Languages Negotiator_languages match_ request = Normal (None, request).
Proof.
  intros [s ->]%startsWith_inv Hin Hpath.
  destruct (split_decompose s "/") as (segment & rest & -> & Hs & Hrest).
  rewrite (toggle_switchLanguage_path _ _ _ Hs Hrest) in Hpath.
  destruct (or_else_rest rest Hrest) as [rest' Hr]. rewrite Hr in Hpath.
  apply middleware_passThrough. rewrite Hpath. by apply prefixed_pathnameHasLocale.
Qed.

Lemma toggle_click_passes_middleware_witness :
  Negotiation.routeRequest (requestFor "/ar/" ∅) = Normal (None, requestFor "/ar/" ∅).
Proof.
  apply (toggle_click_passes_middleware _ Negotiation.languages Negotiation.match_
           "/about" "ar").
  - reflexivity.
  - apply list_elem_of_further, list_elem_of_here.
  - reflexivity.
Defined.

(** X12. With the toggle too, switching to another locale and back
    restores a path in which something follows the first segment. *)
Theorem toggle_round_trip (segment newLocale rest : string) :
  JSString.includes segment "/" = false ->
  JSString.includes newLocale "/" = false ->
  LanguageToggle.switchLanguage
    (LanguageToggle.switchLanguage ("/" +:+ segment +:+ "/" +:+ rest) newLocale) segment
  = "/" +:+ segment +:+ "/" +:+ rest.
Proof.
  intros Hs Hn.
  assert ("/" +:+ rest = "" \/ exists rest', "/" +:+ rest = String "/" rest') as Hrest
    by (right; by exists rest).
  rewrite (toggle_switchLanguage_path _ _ _ Hs Hrest).
  change (or_else (Some ("/" +:+ rest)) "/") with ("/" +:+ rest).
  by rewrite (toggle_switchLanguage_path _ _ _ Hn Hrest).
Qed.

Lemma toggle_round_trip_witness :
  LanguageToggle.switchLanguage (LanguageToggle.switchLanguage "/en/blog/post" "ar") "en"
  = "/en/blog/post".
Proof. apply (toggle_round_trip "en" "ar" "blog/post"); reflexivity. Defined.

(** ** The active button *)

(** X13. The language switcher marks as active the button of the current
    locale and no other; none when the locale is not one of its
    languages. *)
Theorem language_buttons_active (pathname locale : string) :
  map LanguageSwitcherMultiButton.key
    (List.filter LanguageSwitcherMultiButton.isActive
       (LanguageSwitcherMultiButton.render pathname locale))
  = if bool_decide (locale ∈ locales) then [locale] else [].
Proof.
  destruct (decide (locale = "en")) as [->|Hen]; [reflexivity|].
  destruct (decide (locale = "ar")) as [->|Har]; [reflexivity|].
  rewrite bool_decide_eq_false_2.
  - cbn. apply String.eqb_neq in Hen, Har. by rewrite Hen, Har.
  - intros H%list_elem_of_In. cbn in H. by destruct H as [<-|[<-|[]]].
Qed.

(** X14. The theme switcher marks as active the button of the current
    theme and no other; none before it is mounted, while the theme is
    undefined, or for a theme that is not one of its three. *)
Theorem theme_buttons_active (mounted : bool) (theme : option string) :
  map ThemeSwitcherMultiButton.key
    (List.filter ThemeSwitcherMultiButton.isActive
       (ThemeSwitcherMultiButton.render mounted theme))
  = match theme with
    | Some t =>
        if mounted && bool_decide (t ∈ ["system"; "light"; "dark"]) then [t] else []
    | None => []
    end.
Proof.
  destruct mounted; [|by destruct theme as [t|]; [destruct (bool_decide _)|]].
  destruct theme as [t|]; [|reflexivity].
  destruct (decide (t = "system")) as [->|H1]; [reflexivity|].
  destruct (decide (t = "light")) as [->|H2]; [reflexivity|].
  destruct (decide (t = "dark")) as [->|H3]; [reflexivity|].
  rewrite bool_decide_eq_false_2.
  - cbn. apply String.eqb_neq in H1, H2, H3. by rewrite H1, H2, H3.
  - intros H%list_elem_of_In. cbn in H. by destruct H as [<-|[<-|[<-|[]]]].
Qed.
